(** * Cloud Trace exporter: span transformer and export flow

    A shallow embedding of
    [packages/opentelemetry-cloud-trace-exporter/src/transform.ts] and
    [packages/opentelemetry-cloud-trace-exporter/src/trace.ts].

    JavaScript objects used as dictionaries ([ot.Attributes], resource
    labels, the protobuf [attributeMap]) are finite maps keyed by strings;
    JavaScript numbers are IEEE-754 binary64 values, represented by the
    Standard Library's [spec_float]. *)

From Stdlib Require Import ZArith QArith Qabs Qround Lia Lqa.
From Stdlib Require Import Floats.SpecFloat.
From stdpp Require Import base option list strings gmap fin_maps.

Local Open Scope string_scope.
Local Open Scope Z_scope.

(** ** JavaScript values *)

Module JS.

(** A JavaScript [number]. *)
Abbreviation number := spec_float.

Definition NaN : number := S754_nan.
Definition Infinity : number := S754_infinity false.
Definition NegInfinity : number := S754_infinity true.

(** The number denoted by an integer literal. *)
Definition of_Z (z : Z) : number :=
  match z with
  | Z0 => S754_zero false
  | Zpos p => S754_finite false p 0
  | Zneg p => S754_finite true p 0
  end.

(** Signed mantissa of a finite number. *)
Definition signed (s : bool) (m : positive) : Z :=
  if s then Zneg m else Zpos m.

(** The rational denoted by sign [s], mantissa [m], exponent [e]:
    [(-1)^s * m * 2^e]. *)
Definition finite_to_Q (s : bool) (m : positive) (e : Z) : Q :=
  if 0 <=? e then inject_Z (signed s m * 2 ^ e)
  else Qmake (signed s m) (Z.to_pos (2 ^ (- e))).

(** The rational a number denotes; [None] for NaN and the infinities. *)
Definition to_Q (x : number) : option Q :=
  match x with
  | S754_zero _ => Some (inject_Z 0)
  | S754_finite s m e => Some (finite_to_Q s m e)
  | S754_infinity _ | S754_nan => None
  end.

(** The integer a number is, when it is one. *)
Definition to_Z (x : number) : option Z :=
  match x with
  | S754_zero _ => Some 0
  | S754_finite s m e =>
    if 0 <=? e then Some (signed s m * 2 ^ e)
    else if signed s m mod 2 ^ (- e) =? 0 then Some (signed s m / 2 ^ (- e))
    else None
  | S754_infinity _ | S754_nan => None
  end.

(** [Math.round(x)]: NaN, the infinities, the zeros and the integral
    numbers are returned unchanged; any other [x] gives the integral number
    closest to [x], the one closer to +Infinity when two are equally close,
    and a result that is zero keeps the sign of [x].  With [x = n / d] for
    [d = 2^(-e)], [floor (x + 1/2)] is [(2 * n + d) / (2 * d)], which is
    exact; the result is given with exponent [0]. *)
Definition Math_round (x : number) : number :=
  match x with
  | S754_finite s m e =>
      if 0 <=? e then x
      else
        let n := signed s m in
        let d := 2 ^ (- e) in
        if n mod d =? 0 then x
        else
          let r := (2 * n + d) / (2 * d) in
          if r =? 0 then S754_zero s else of_Z r
  | _ => x
  end.

(** Values the [typeof] operator does not report as ['string'],
    ['number'] or ['boolean'].  Of an object, [Object.assign] can see one
    thing more: whether it has a property of its own named [__proto__]. *)
Inductive other :=
| Undefined
| Null
| Obj (own_proto : bool)
| Func
| Symbol
| BigInt.

(** A JavaScript value, as far as [typeof] tells values apart. *)
Inductive value :=
| Str (s : string)
| Num (n : number)
| Bool (b : bool)
| Other (o : other).

Inductive type_tag :=
| t_string | t_number | t_boolean
| t_undefined | t_object | t_function | t_symbol | t_bigint.

Definition typeof (v : value) : type_tag :=
  match v with
  | Str _ => t_string
  | Num _ => t_number
  | Bool _ => t_boolean
  | Other Undefined => t_undefined
  | Other Null => t_object
  | Other (Obj _) => t_object
  | Other Func => t_function
  | Other Symbol => t_symbol
  | Other BigInt => t_bigint
  end.

(** ToBoolean on an optional boolean property ([undefined] is falsy). *)
Definition truthy_flag (b : option bool) : bool := default false b.

(** ToBoolean on an optional string ([undefined] and [''] are falsy). *)
Definition truthy_string (s : option string) : bool :=
  match s with
  | Some s => negb (String.eqb s "")
  | None => false
  end.

(** The object [Object.assign] writes to: the properties of its own, and
    whether an assignment to [__proto__] still reaches the setter that
    [Object.prototype] has for it. *)
Record Target := {
  props : gmap string value;
  proto_setter : bool;
}.

(** Assigning [v] to [__proto__] through that setter.  A value that is
    neither an object nor [null] is ignored.  An object or [null] becomes
    the prototype of the target; the setter is then out of reach when the
    new prototype is [null] or has a [__proto__] property of its own.  The
    new prototype is taken to leave every other assignment alone, as an
    object of writable data properties does. *)
Definition proto_setter_after (v : value) : bool :=
  match v with
  | Other Null => false
  | Other (Obj own_proto) => negb own_proto
  | _ => true
  end.

(** One source of [Object.assign]: each property of the source is assigned
    to the target.  While the setter is in reach the assignment to
    [__proto__] goes to it and adds no property; once it is out of reach
    [__proto__] is a property like any other. *)
Definition assign_source (t : Target) (source : gmap string value) : Target :=
  if proto_setter t then
    {| props := delete "__proto__" source ∪ props t;
       proto_setter :=
         match source !! "__proto__" with
         | Some v => proto_setter_after v
         | None => true
         end |}
  else {| props := source ∪ props t; proto_setter := false |}.

(** [Object.assign(target, ...sources)] on a target made by an object
    literal: every source in turn writes its properties over the
    target's. *)
Definition Object_assign (target : gmap string value)
    (sources : list (gmap string value)) : gmap string value :=
  props (foldl assign_source {| props := target; proto_setter := true |} sources).

(** [out[key] = v] for an object [v] on an [out] made by an object literal:
    the assignment to [__proto__] reaches the setter, which makes [v] the
    prototype of [out] and adds no property. *)
Definition set_property {A} (key : string) (v : A) (out : gmap string A)
  : gmap string A :=
  if decide (key = "__proto__") then out else <[key := v]> out.

(** [Object.keys(o).length]. *)
Definition keys_length {A} (o : gmap string A) : Z := Z.of_nat (size o).

End JS.

Import JS.

(** ** Input: the SDK's span ([ReadableSpan]) *)

(** [ot.Attributes]: attribute key to a value of any type. *)
Abbreviation Attributes := (gmap string value).

(** A resource label value: [number | string | boolean]. *)
Inductive label :=
| LStr (s : string)
| LNum (n : number)
| LBool (b : bool).

Definition label_value (l : label) : value :=
  match l with
  | LStr s => Str s
  | LNum n => Num n
  | LBool b => Bool b
  end.

(** [Resource]: its labels. *)
Record Resource := { labels : gmap string label }.

(** [Resource.empty()]. *)
Definition Resource_empty : Resource := {| labels := ∅ |}.

(** [ot.HrTime]: [[seconds, nanoseconds]]. *)
Definition HrTime : Type := number * number.

Record SpanContext := {
  traceId : string;
  spanId : string;
  isRemote : option bool;
}.

Record LinkContext := {
  lc_traceId : string;
  lc_spanId : string;
}.

Record Link := {
  context : LinkContext;
  link_attributes : option Attributes;
}.

Record TimedEvent := {
  ev_time : HrTime;
  ev_name : string;
  ev_attributes : option Attributes;
}.

Record Status := {
  st_code : Z;
  st_message : option string;
}.

Record ReadableSpan := {
  name : string;
  spanContext : SpanContext;
  parentSpanId : option string;
  startTime : HrTime;
  endTime : HrTime;
  status : Status;
  attributes : Attributes;
  links : list Link;
  events : list TimedEvent;
  resource : Resource;
}.

(** ** Output: the Cloud Trace v2 messages

    The messages are the generated classes of [./types]; here they are
    records of their fields.  A message field that [create] leaves unset is
    [None]; scalar fields take the schema's default. *)

Module cloudtracev2.

Record TruncatableString := {
  ts_value : string;
  truncatedByteCount : Z;
}.

(** The [value] oneof of an attribute value: at most one field is set. *)
Record AttributeValue := {
  stringValue : option TruncatableString;
  intValue : option number;
  boolValue : option bool;
}.

Record Attributes := {
  attributeMap : gmap string AttributeValue;
  droppedAttributesCount : Z;
}.

Inductive LinkType :=
| TYPE_UNSPECIFIED
| CHILD_LINKED_SPAN
| PARENT_LINKED_SPAN.

Record Link := {
  l_traceId : string;
  l_spanId : string;
  l_type : LinkType;
  l_attributes : option Attributes;
}.

Record Links := {
  link : list Link;
  droppedLinksCount : Z;
}.

Record Timestamp := {
  seconds : number;
  nanos : number;
}.

Record Annotation := {
  description : option TruncatableString;
  a_attributes : option Attributes;
}.

Record TimeEvent := {
  time : option Timestamp;
  annotation : option Annotation;
}.

Record TimeEvents := {
  timeEvent : list TimeEvent;
  droppedAnnotationsCount : Z;
  droppedMessageEventsCount : Z;
}.

Record BoolValue := { bv_value : bool }.

Record RpcStatus := {
  code : Z;
  message : string;
}.

Record Span := {
  s_name : string;
  s_spanId : string;
  s_parentSpanId : string;
  displayName : option TruncatableString;
  s_startTime : option Timestamp;
  s_endTime : option Timestamp;
  s_attributes : option Attributes;
  s_timeEvents : option TimeEvents;
  s_links : option Links;
  s_status : option RpcStatus;
  sameProcessAsParentSpan : option BoolValue;
}.

Record BatchWriteSpansRequest := {
  r_name : string;
  r_spans : list Span;
}.

End cloudtracev2.

(** ** transform.ts *)

Section Transform.

(** [VERSION] of [@opentelemetry/core] and of this package
    ([./version]). *)
Variables (CORE_VERSION VERSION : string).

Definition AGENT_LABEL_KEY : string := "g.co/agent".

Definition AGENT_LABEL_VALUE : string :=
  "opentelemetry-js " +:+ CORE_VERSION +:+
  "; google-cloud-trace-exporter " +:+ VERSION.

Definition transformBool (value : bool) : cloudtracev2.BoolValue :=
  {| cloudtracev2.bv_value := value |}.

Definition transformTime (time : HrTime) : cloudtracev2.Timestamp :=
  {| cloudtracev2.seconds := fst time; cloudtracev2.nanos := snd time |}.

Definition transformStatus (status : Status) : cloudtracev2.RpcStatus :=
  {| cloudtracev2.code := st_code status;
     cloudtracev2.message := default "" (st_message status) |}.

Definition stringToTruncatableString (value : string)
  : cloudtracev2.TruncatableString :=
  {| cloudtracev2.ts_value := value; cloudtracev2.truncatedByteCount := 0 |}.

(** [AttributeValue.create()]: no field of the oneof set. *)
Definition AttributeValue_create : cloudtracev2.AttributeValue :=
  {| cloudtracev2.stringValue := None;
     cloudtracev2.intValue := None;
     cloudtracev2.boolValue := None |}.

Definition valueToAttributeValue (value : JS.value)
  : cloudtracev2.AttributeValue :=
  let attributeValue := AttributeValue_create in
  match value with
  | Num n =>
      {| cloudtracev2.stringValue := cloudtracev2.stringValue attributeValue;
         cloudtracev2.intValue := Some (Math_round n);
         cloudtracev2.boolValue := cloudtracev2.boolValue attributeValue |}
  | Bool b =>
      {| cloudtracev2.stringValue := cloudtracev2.stringValue attributeValue;
         cloudtracev2.intValue := cloudtracev2.intValue attributeValue;
         cloudtracev2.boolValue := Some b |}
  | Str s =>
      {| cloudtracev2.stringValue := Some (stringToTruncatableString s);
         cloudtracev2.intValue := cloudtracev2.intValue attributeValue;
         cloudtracev2.boolValue := cloudtracev2.boolValue attributeValue |}
  | Other _ => attributeValue
  end.

(** The loop over [Object.entries(attributes)]: an entry whose value is a
    number, a boolean or a string is assigned to [out]; any other entry is
    skipped. *)
Definition transformAttributeValues (attributes : Attributes)
  : gmap string cloudtracev2.AttributeValue :=
  map_fold
    (λ key value out,
       match typeof value with
       | t_number | t_boolean | t_string =>
           set_property key (valueToAttributeValue value) out
       | _ => out
       end)
    ∅ attributes.

Definition transformAttributes (requestAttributes : option Attributes)
    (serviceAttributes : option Attributes) (resource : option Resource)
  : cloudtracev2.Attributes :=
  let requestAttributes := default ∅ requestAttributes in
  let serviceAttributes := default ∅ serviceAttributes in
  let resource := default Resource_empty resource in
  let attributes :=
    Object_assign ∅
      [requestAttributes; serviceAttributes; label_value <$> labels resource] in
  let attributeMap := transformAttributeValues attributes in
  {| cloudtracev2.attributeMap := attributeMap;
     cloudtracev2.droppedAttributesCount :=
       keys_length attributes - keys_length attributeMap |}.

Definition transformLink (link : Link) : cloudtracev2.Link :=
  {| cloudtracev2.l_attributes :=
       Some (transformAttributes (link_attributes link) None None);
     cloudtracev2.l_spanId := lc_spanId (context link);
     cloudtracev2.l_traceId := lc_traceId (context link);
     cloudtracev2.l_type := cloudtracev2.TYPE_UNSPECIFIED |}.

Definition transformLinks (links : list Link) : cloudtracev2.Links :=
  {| cloudtracev2.link := map transformLink links;
     cloudtracev2.droppedLinksCount := 0 |}.

Definition transformTimeEvent (event : TimedEvent) : cloudtracev2.TimeEvent :=
  {| cloudtracev2.time := Some (transformTime (ev_time event));
     cloudtracev2.annotation :=
       Some {| cloudtracev2.a_attributes :=
                 Some (transformAttributes (ev_attributes event) None None);
               cloudtracev2.description :=
                 Some (stringToTruncatableString (ev_name event)) |} |}.

Definition transformTimeEvents (events : list TimedEvent)
  : cloudtracev2.TimeEvents :=
  {| cloudtracev2.timeEvent := map transformTimeEvent events;
     cloudtracev2.droppedAnnotationsCount := 0;
     cloudtracev2.droppedMessageEventsCount := 0 |}.

(** The object literal passed as [serviceAttributes]. *)
Definition serviceAttributes (projectId : string) : Attributes :=
  <[AGENT_LABEL_KEY := Str AGENT_LABEL_VALUE]>
    (<["project_id" := Str projectId]> ∅).

Definition getReadableSpanTransformer (projectId : string)
    (span : ReadableSpan) : cloudtracev2.Span :=
  let attributes :=
    transformAttributes (Some (attributes span))
      (Some (serviceAttributes projectId)) (Some (resource span)) in
  {| cloudtracev2.s_attributes := Some attributes;
     cloudtracev2.displayName := Some (stringToTruncatableString (name span));
     cloudtracev2.s_links := Some (transformLinks (links span));
     cloudtracev2.s_endTime := Some (transformTime (endTime span));
     cloudtracev2.s_startTime := Some (transformTime (startTime span));
     cloudtracev2.s_name :=
       "projects/" +:+ projectId +:+ "/traces/" +:+
       traceId (spanContext span) +:+ "/spans/" +:+ spanId (spanContext span);
     cloudtracev2.s_spanId := spanId (spanContext span);
     cloudtracev2.sameProcessAsParentSpan :=
       Some (transformBool (negb (truthy_flag (isRemote (spanContext span)))));
     cloudtracev2.s_status := Some (transformStatus (status span));
     cloudtracev2.s_timeEvents := Some (transformTimeEvents (events span));
     cloudtracev2.s_parentSpanId :=
       if truthy_string (parentSpanId span)
       then default "" (parentSpanId span) else "" |}.

End Transform.

(** ** trace.ts *)

(** [ExportResult] of [@opentelemetry/base]. *)
Inductive ExportResult :=
| SUCCESS
| FAILED_NOT_RETRYABLE
| FAILED_RETRYABLE.

(** A JavaScript [Error]. *)
Record Error := { err_message : string }.

(** What [auth.getClient()] resolves to. *)
Record Credentials := { cred_id : nat }.

(** The rpc client [_getClient] builds: a [grpc.Client] for the service's
    host that signs its calls with the credentials. *)
Record TraceService := {
  host : string;
  credentials : Credentials;
}.

(** [this._projectId : string | void | Promise<string | void>].  A promise
    is given with the value it settles to; [None] is [undefined]. *)
Inductive ProjectId :=
| Pending (settles_to : option string)
| Settled (v : option string).

(** The mutable fields of a [TraceExporter]. *)
Record TraceExporter := {
  _projectId : ProjectId;
  _traceServiceClient : option TraceService;
}.

(** What a call does that can be seen from outside, in order. *)
Inductive Event :=
| LogDebug (msg : string)
| LogError (msg : string)
| AuthGetProjectId
| AuthGetClient
| RpcBatchWriteSpans (client : TraceService)
    (request : cloudtracev2.BatchWriteSpansRequest)
| ResultCallback (result : ExportResult).

(** The collaborators' answers during one [export] call: what awaiting
    [auth.getClient()] gives (an exception is [inl]), and the error the rpc
    hands to its callback ([None] is [null]). *)
Record World := {
  auth_getClient : Error + Credentials;
  rpc_error : option Error;
}.

(** A method of the exporter: it reads and writes the instance's fields and
    emits events. *)
Definition Method (A : Type) : Type :=
  TraceExporter → A * TraceExporter * list Event.

Global Instance Method_ret : MRet Method := λ A x self, (x, self, []).

Global Instance Method_bind : MBind Method := λ A B f m self,
  let '(x, self1, evs1) := m self in
  let '(y, self2, evs2) := f x self1 in
  (y, self2, (evs1 ++ evs2)%list).

Definition this : Method TraceExporter := λ self, (self, self, []).

Definition emit (e : Event) : Method unit := λ self, (tt, self, [e]).

Definition set_projectId (v : ProjectId) : Method unit := λ self,
  (tt, {| _projectId := v; _traceServiceClient := _traceServiceClient self |}, []).

Definition set_traceServiceClient (c : TraceService) : Method unit := λ self,
  (tt, {| _projectId := _projectId self; _traceServiceClient := Some c |}, []).

Section Exporter.

Variables (CORE_VERSION VERSION : string).

(** The constructor starts resolving the project id; a rejection is
    logged and the promise then settles to [undefined]. *)
Definition constructor (getProjectId : Error + string)
  : TraceExporter * list Event :=
  match getProjectId with
  | inr id =>
      ({| _projectId := Pending (Some id); _traceServiceClient := None |},
       [AuthGetProjectId])
  | inl err =>
      ({| _projectId := Pending None; _traceServiceClient := None |},
       [AuthGetProjectId; LogError (err_message err)])
  end.

Definition _getClient (w : World) : Method (Error + TraceService) :=
  emit (LogDebug "Google Cloud Trace authenticating");;
  emit AuthGetClient;;
  match auth_getClient w with
  | inl err => mret (inl err)
  | inr creds =>
      emit (LogDebug
        "Google Cloud Trace got authentication. Initializaing rpc client");;
      mret (inr {| host := "cloudtrace.googleapis.com";
                   credentials := creds |})
  end.

(** The rpc and its callback. *)
Definition call_batchWriteSpans (w : World) (client : TraceService)
    (request : cloudtracev2.BatchWriteSpansRequest) : Method ExportResult :=
  emit (RpcBatchWriteSpans client request);;
  match rpc_error w with
  | Some err =>
      emit (LogError ("batchWriteSpans error: " +:+ err_message err));;
      mret FAILED_RETRYABLE
  | None =>
      emit (LogDebug "batchWriteSpans successfully");;
      mret SUCCESS
  end.

Definition _batchWriteSpans (w : World)
    (request : cloudtracev2.BatchWriteSpansRequest) : Method ExportResult :=
  emit (LogDebug "Google Cloud Trace batch writing traces");;
  self ← this;
  match _traceServiceClient self with
  | None =>
      built ← _getClient w;
      match built with
      | inl err =>
          emit (LogError ("authorize error: " +:+ err_message err));;
          mret FAILED_NOT_RETRYABLE
      | inr client =>
          set_traceServiceClient client;;
          call_batchWriteSpans w client request
      end
  | Some client => call_batchWriteSpans w client request
  end.

(** [export(spans, resultCallback)]; calling the callback is the event
    [ResultCallback]. *)
Definition export (w : World) (spans : list ReadableSpan) : Method unit :=
  self ← this;
  projectId ←
    match _projectId self with
    | Pending v => set_projectId (Settled v);; mret v
    | Settled v => mret v
    end;
  if negb (truthy_string projectId) then
    emit (ResultCallback FAILED_NOT_RETRYABLE)
  else
    let projectId := default "" projectId in
    emit (LogDebug "Google Cloud Trace export");;
    let request :=
      {| cloudtracev2.r_name := "projects/" +:+ projectId;
         cloudtracev2.r_spans :=
           map (getReadableSpanTransformer CORE_VERSION VERSION projectId)
             spans |} in
    result ← _batchWriteSpans w request;
    emit (ResultCallback result).

(** A sequence of [export] calls on one instance, each finished before the
    next starts, each with the answers its collaborators give; the events of
    each call. *)
Fixpoint exports (calls : list (World * list ReadableSpan))
    (self : TraceExporter) : TraceExporter * list (list Event) :=
  match calls with
  | [] => (self, [])
  | (w, spans) :: calls =>
      let '(_, self1, evs) := export w spans self in
      let '(self2, rest) := exports calls self1 in
      (self2, evs :: rest)
  end.

End Exporter.

(** The results a call handed to its callback. *)
Definition callbacks (evs : list Event) : list ExportResult :=
  omap (λ e, match e with ResultCallback r => Some r | _ => None end) evs.

Definition is_network (e : Event) : bool :=
  match e with
  | AuthGetClient | RpcBatchWriteSpans _ _ => true
  | _ => false
  end.

(** The project id an instance has or will have; [None] when resolution
    failed or gave no id. *)
Definition resolved_projectId (self : TraceExporter) : option string :=
  let v := match _projectId self with Pending v | Settled v => v end in
  if truthy_string v then v else None.

(** ** Vocabulary of the properties *)

(** The types [transformAttributeValues] keeps. *)
Definition supported (v : value) : bool :=
  match typeof v with
  | t_number | t_boolean | t_string => true
  | _ => false
  end.

(** What an attribute value becomes in the output map, if anything. *)
Definition convert (v : value) : option cloudtracev2.AttributeValue :=
  if supported v then Some (valueToAttributeValue v) else None.

(** The merged mapping: the local [attributes] of [transformAttributes]. *)
Definition mergedAttributes (requestAttributes serviceAttributes : option Attributes)
    (resource : option Resource) : Attributes :=
  Object_assign ∅
    [default ∅ requestAttributes; default ∅ serviceAttributes;
     label_value <$> labels (default Resource_empty resource)].

(** The value of the highest-precedence source that has the key, in the
    order request < service < resource. *)
Definition by_precedence (request service : Attributes)
    (resourceLabels : gmap string label) (key : string) : option value :=
  match resourceLabels !! key with
  | Some l => Some (label_value l)
  | None =>
      match service !! key with
      | Some v => Some v
      | None => request !! key
      end
  end.

(** Whether the setter for [__proto__] is still in reach of the target after
    a source has been assigned to a target that had it in reach. *)
Definition keeps_proto_setter (source : Attributes) : bool :=
  match source !! "__proto__" with
  | Some v => proto_setter_after v
  | None => true
  end.


(** The events and the final state of a call. *)
Definition events_of {A} (r : A * TraceExporter * list Event) : list Event :=
  snd r.

Definition state_of {A} (r : A * TraceExporter * list Event) : TraceExporter :=
  snd (fst r).

(** The spans and inputs of the package's test suite. *)
Module Fixtures.

Definition CORE_VERSION : string := "0.10.0".
Definition VERSION : string := "0.3.0".

Definition context0 : SpanContext :=
  {| traceId := "d4cda95b652f4a1592b449d5929fda1b";
     spanId := "6e0c63257de34c92";
     isRemote := Some true |}.

(** [112.12] as a binary64: [986217949649961 * 2^-43]. *)
Definition n112_12 : number := S754_finite false 986217949649961 (-43).

Definition readableSpan : ReadableSpan :=
  {| name := "my-span";
     spanContext := context0;
     parentSpanId := None;
     startTime := (of_Z 1566156729, of_Z 709);
     endTime := (of_Z 1566156731, of_Z 709);
     status := {| st_code := 0; st_message := None |};
     attributes := ∅;
     links := [];
     events := [];
     resource :=
       {| labels :=
            <["cost" := LNum n112_12]>
              (<["version" := LNum (of_Z 1)]>
                 (<["service" := LStr "ui"]> ∅)) |} |}.


(** A span with nothing in it, on an empty resource. *)
Definition bareSpan : ReadableSpan :=
  {| name := "my-span";
     spanContext := context0;
     parentSpanId := None;
     startTime := startTime readableSpan;
     endTime := endTime readableSpan;
     status := status readableSpan;
     attributes := ∅;
     links := [];
     events := [];
     resource := Resource_empty |}.

(** The span of a context that carries no [isRemote]. *)
Definition unflaggedSpan : ReadableSpan :=
  {| name := "my-span";
     spanContext :=
       {| traceId := traceId context0;
          spanId := spanId context0;
          isRemote := None |};
     parentSpanId := None;
     startTime := startTime readableSpan;
     endTime := endTime readableSpan;
     status := status readableSpan;
     attributes := ∅;
     links := [];
     events := [];
     resource := resource readableSpan |}.



Definition transformer : ReadableSpan → cloudtracev2.Span :=
  getReadableSpanTransformer CORE_VERSION VERSION "project-id".

Definition authError : Error := {| err_message := "Could not load credentials" |}.

Definition rpcError : Error := {| err_message := "UNAVAILABLE" |}.

(** An exporter whose project id could not be resolved. *)
Definition unresolvedExporter : TraceExporter :=
  fst (constructor (inl authError)).

(** An exporter whose project id resolves. *)
Definition resolvedExporter : TraceExporter :=
  fst (constructor (inr "project-id")).

(** An exporter that has resolved its project id and built its client. *)
Definition readyExporter : TraceExporter :=
  {| _projectId := Settled (Some "project-id");
     _traceServiceClient :=
       Some {| host := "cloudtrace.googleapis.com";
               credentials := {| cred_id := 1 |} |} |}.

Definition worldAuthFails : World :=
  {| auth_getClient := inl authError; rpc_error := None |}.

Definition worldOk : World :=
  {| auth_getClient := inr {| cred_id := 1 |}; rpc_error := None |}.

Definition worldRpcFails : World :=
  {| auth_getClient := inr {| cred_id := 1 |}; rpc_error := Some rpcError |}.

End Fixtures.

(** The number of fields of the [value] oneof that are set. *)
Definition fields_set (av : cloudtracev2.AttributeValue) : nat :=
  ((if cloudtracev2.stringValue av is Some _ then 1 else 0) +
   (if cloudtracev2.intValue av is Some _ then 1 else 0) +
   (if cloudtracev2.boolValue av is Some _ then 1 else 0))%nat.

(** The messages a call logged as errors. *)
Definition errors (evs : list Event) : list string :=
  omap (λ e, match e with LogError msg => Some msg | _ => None end) evs.

(** The rpcs a call issued: the client used and the request sent. *)
Definition rpcs (evs : list Event)
  : list (TraceService * cloudtracev2.BatchWriteSpansRequest) :=
  omap (λ e, match e with
             | RpcBatchWriteSpans client request => Some (client, request)
             | _ => None
             end) evs.

(** The number of attempts to build the rpc client in a call. *)
Definition client_builds (evs : list Event) : nat :=
  length (omap (λ e, match e with AuthGetClient => Some tt | _ => None end) evs).

(** ** Finite-map lemmas *)

Section MapLemmas.

Context {A B : Type}.

Lemma size_omap_filter (f : A → option B) (m : gmap string A) :
  size (omap f m) = size (filter (λ kv, is_Some (f kv.2)) m).
Proof.
  induction m as [|i x m Hi IH] using map_ind.
  - by rewrite omap_empty, map_filter_empty.
  - destruct (f x) as [y|] eqn:Hfx.
    + rewrite (omap_insert_Some f m i x y Hfx).
      rewrite map_filter_insert_True by (simpl; rewrite Hfx; eauto).
      rewrite !map_size_insert_None; [by rewrite IH | |].
      * apply map_lookup_filter_None; by left.
      * by rewrite lookup_omap, Hi.
    + rewrite (omap_insert_None f m i x Hfx).
      rewrite map_filter_insert_False
        by (simpl; rewrite Hfx; by intros [? ?]).
      rewrite !delete_id; [done | done |].
      by rewrite lookup_omap, Hi.
Qed.

Lemma size_filter_split (P : string * A → Prop) `{!∀ x, Decision (P x)}
    (m : gmap string A) :
  size m = (size (filter P m) + size (filter (λ kv, ¬ P kv) m))%nat.
Proof.
  rewrite <- map_size_disj_union by apply map_disjoint_filter_complement.
  by rewrite map_filter_union_complement.
Qed.


End MapLemmas.

(** ** [Object.assign] *)

Lemma Object_assign_three (a b c : Attributes) :
  Object_assign ∅ [a; b; c] =
  if keeps_proto_setter a then
    (if keeps_proto_setter b then delete "__proto__" c else c)
      ∪ (delete "__proto__" b ∪ delete "__proto__" a)
  else c ∪ (b ∪ delete "__proto__" a).
Proof.
  unfold Object_assign; simpl. unfold assign_source at 3; simpl.
  fold (keeps_proto_setter a). rewrite (right_id_L ∅ (∪)).
  destruct (keeps_proto_setter a).
  - unfold assign_source at 2; simpl. fold (keeps_proto_setter b).
    destruct (keeps_proto_setter b); reflexivity.
  - reflexivity.
Qed.

Lemma Object_assign_lookup (a b c : Attributes) (key : string) :
  key ≠ "__proto__" →
  Object_assign ∅ [a; b; c] !! key = (c ∪ (b ∪ a)) !! key.
Proof.
  intros Hkey. rewrite Object_assign_three.
  destruct (keeps_proto_setter a), (keeps_proto_setter b);
    rewrite !lookup_union, ?lookup_delete_ne by done; reflexivity.
Qed.


Lemma Object_assign_one (a : Attributes) :
  Object_assign ∅ [a; ∅; ∅] = delete "__proto__" a.
Proof.
  rewrite Object_assign_three.
  assert (keeps_proto_setter (∅ : Attributes) = true) as -> by reflexivity.
  destruct (keeps_proto_setter a);
    by rewrite ?delete_empty, !(left_id_L ∅ (∪)).
Qed.

(** ** The attribute transformer *)

Lemma convert_typeof (v : value) :
  convert v =
  match typeof v with
  | t_number | t_boolean | t_string => Some (valueToAttributeValue v)
  | _ => None
  end.
Proof. unfold convert, supported; by destruct (typeof v). Qed.

Lemma transformAttributeValues_omap (attributes : Attributes) :
  transformAttributeValues attributes =
  omap convert (delete "__proto__" attributes).
Proof.
  unfold transformAttributeValues.
  apply (map_fold_weak_ind
           (λ out m, out = omap convert (delete "__proto__" m))).
  - by rewrite delete_empty, omap_empty.
  - intros key v m out Hkey ->.
    assert (Hnone : omap convert (delete "__proto__" m) !! key = None).
    { rewrite lookup_omap.
      destruct (delete "__proto__" m !! key) as [x|] eqn:Hx; [|done].
      apply lookup_delete_Some in Hx as [_ Hx]. congruence. }
    destruct (decide (key = "__proto__")) as [->|Hne].
    + rewrite delete_insert_eq.
      unfold set_property. rewrite decide_True by done.
      by destruct (typeof v).
    + rewrite delete_insert_ne by done.
      rewrite omap_insert, convert_typeof.
      unfold set_property. rewrite decide_False by done.
      destruct (typeof v); try done; symmetry; by apply delete_id.
Qed.

Lemma transformAttributeValues_lookup (attributes : Attributes) (key : string) :
  key ≠ "__proto__" →
  transformAttributeValues attributes !! key = attributes !! key ≫= convert.
Proof.
  intros Hkey.
  by rewrite transformAttributeValues_omap, lookup_omap, lookup_delete_ne.
Qed.

Lemma transformAttributeValues_proto (attributes : Attributes) :
  transformAttributeValues attributes !! "__proto__" = None.
Proof.
  by rewrite transformAttributeValues_omap, lookup_omap, lookup_delete_eq.
Qed.

Lemma mergedAttributes_lookup req svc res (key : string) :
  key ≠ "__proto__" →
  mergedAttributes req svc res !! key =
  by_precedence (default ∅ req) (default ∅ svc)
    (labels (default Resource_empty res)) key.
Proof.
  intros Hkey. unfold mergedAttributes, by_precedence.
  rewrite Object_assign_lookup by done.
  rewrite !lookup_union, lookup_fmap.
  destruct (labels (default Resource_empty res) !! key) as [l|]; simpl.
  - by rewrite union_Some_l.
  - rewrite (left_id_L None union).
    destruct (default ∅ svc !! key) as [v|]; simpl.
    + by rewrite union_Some_l.
    + by rewrite (left_id_L None union).
Qed.

Lemma transformAttributes_map req svc res :
  cloudtracev2.attributeMap (transformAttributes req svc res) =
  transformAttributeValues (mergedAttributes req svc res).
Proof. reflexivity. Qed.

Lemma transformAttributes_dropped req svc res :
  cloudtracev2.droppedAttributesCount (transformAttributes req svc res) =
  keys_length (mergedAttributes req svc res) -
  keys_length (transformAttributeValues (mergedAttributes req svc res)).
Proof. reflexivity. Qed.

Lemma convert_label (l : label) :
  convert (label_value l) = Some (valueToAttributeValue (label_value l)).
Proof. by destruct l. Qed.

Lemma is_Some_convert (v : value) : is_Some (convert v) ↔ supported v = true.
Proof.
  unfold convert. destruct (supported v); split; intros H; eauto.
  - by destruct H.
  - discriminate.
Qed.

Lemma size_transformAttributeValues (attributes : Attributes) :
  size (transformAttributeValues attributes) =
  size (filter (λ kv, kv.1 ≠ "__proto__" ∧ supported kv.2 = true) attributes).
Proof.
  rewrite transformAttributeValues_omap, size_omap_filter.
  f_equal. apply map_filter_strong_ext_1. intros key v; simpl.
  rewrite lookup_delete_Some, is_Some_convert. split.
  - intros (Hv & Hkey & Hlookup). split; [split|]; [congruence|done|done].
  - intros ((Hkey & Hv) & Hlookup). split; [done|]. split; [congruence|done].
Qed.


Lemma dropped_unsupported req svc res :
  cloudtracev2.droppedAttributesCount (transformAttributes req svc res) =
  Z.of_nat
    (size (filter (λ kv, ¬ (kv.1 ≠ "__proto__" ∧ supported kv.2 = true))
             (mergedAttributes req svc res))).
Proof.
  rewrite transformAttributes_dropped. unfold keys_length.
  rewrite size_transformAttributeValues.
  rewrite (size_filter_split
             (λ kv, kv.1 ≠ "__proto__" ∧ supported kv.2 = true)
             (mergedAttributes req svc res)) at 1.
  lia.
Qed.

Section TransformProperties.

Variables (CORE_VERSION VERSION : string).

Local Abbreviation transformer := (getReadableSpanTransformer CORE_VERSION VERSION).
Local Abbreviation svcAttributes := (serviceAttributes CORE_VERSION VERSION).

Lemma span_attributes_lookup projectId (span : ReadableSpan) (key : string) :
  key ≠ "__proto__" →
  ∃ out, cloudtracev2.s_attributes (transformer projectId span) = Some out ∧
    cloudtracev2.attributeMap out !! key =
      by_precedence (attributes span) (svcAttributes projectId)
        (labels (resource span)) key ≫= convert.
Proof.
  intros Hkey. eexists; split; [reflexivity|].
  by rewrite transformAttributes_map, transformAttributeValues_lookup,
    mergedAttributes_lookup.
Qed.




End TransformProperties.


(** ** The span transformer *)

Lemma transformAttributes_absent :
  transformAttributes None None None =
  {| cloudtracev2.attributeMap := ∅; cloudtracev2.droppedAttributesCount := 0 |}.
Proof. reflexivity. Qed.

Lemma transformAttributes_empty :
  transformAttributes (Some ∅) None None =
  {| cloudtracev2.attributeMap := ∅; cloudtracev2.droppedAttributesCount := 0 |}.
Proof. reflexivity. Qed.

Section SpanProperties.

Variables (CORE_VERSION VERSION : string).

Local Abbreviation transformer := (getReadableSpanTransformer CORE_VERSION VERSION).
Local Abbreviation svcAttributes := (serviceAttributes CORE_VERSION VERSION).

Lemma serviceAttributes_project_id projectId :
  svcAttributes projectId !! "project_id" = Some (Str projectId).
Proof. reflexivity. Qed.

Lemma serviceAttributes_agent projectId :
  svcAttributes projectId !! AGENT_LABEL_KEY =
  Some (Str (AGENT_LABEL_VALUE CORE_VERSION VERSION)).
Proof. reflexivity. Qed.

(** C7, as the code has it. For a span without attributes, links and
    events, the [links] and [timeEvents] fields are present and hold an
    empty list, and the [attributes] field is present; its map is not empty:
    it holds the service attributes ([project_id] and the agent label) and
    the resource labels other than one named [__proto__], resource labels
    first.  The [Attributes] message of a link or an event that has no
    attributes holds an empty map. *)
Theorem empty_collections_present projectId (span : ReadableSpan) :
  attributes span = ∅ → links span = [] → events span = [] →
  let out := transformer projectId span in
  cloudtracev2.s_links out =
    Some {| cloudtracev2.link := []; cloudtracev2.droppedLinksCount := 0 |}
  ∧ cloudtracev2.s_timeEvents out =
    Some {| cloudtracev2.timeEvent := [];
            cloudtracev2.droppedAnnotationsCount := 0;
            cloudtracev2.droppedMessageEventsCount := 0 |}
  ∧ (∃ attrs, cloudtracev2.s_attributes out = Some attrs
       ∧ (∀ key : string,
            cloudtracev2.attributeMap attrs !! key =
            if decide (key = "__proto__") then None
            else
              match labels (resource span) !! key with
              | Some l => Some (valueToAttributeValue (label_value l))
              | None => svcAttributes projectId !! key ≫= convert
              end)
       ∧ is_Some (cloudtracev2.attributeMap attrs !! "project_id")
       ∧ is_Some (cloudtracev2.attributeMap attrs !! AGENT_LABEL_KEY))
  ∧ (∀ l : Link,
       link_attributes l = None ∨ link_attributes l = Some ∅ →
       cloudtracev2.l_attributes (transformLink l) =
       Some {| cloudtracev2.attributeMap := ∅;
               cloudtracev2.droppedAttributesCount := 0 |})
  ∧ (∀ e : TimedEvent,
       ev_attributes e = None ∨ ev_attributes e = Some ∅ →
       cloudtracev2.annotation (transformTimeEvent e) ≫= cloudtracev2.a_attributes =
       Some {| cloudtracev2.attributeMap := ∅;
               cloudtracev2.droppedAttributesCount := 0 |}).
Proof.
  intros Hattrs Hlinks Hevents out.
  assert (Hlookup : ∀ key : string,
    cloudtracev2.attributeMap
      (transformAttributes (Some (attributes span))
         (Some (svcAttributes projectId)) (Some (resource span))) !! key =
    if decide (key = "__proto__") then None
    else
      match labels (resource span) !! key with
      | Some l => Some (valueToAttributeValue (label_value l))
      | None => svcAttributes projectId !! key ≫= convert
      end).
  { intros key. rewrite transformAttributes_map.
    destruct (decide (key = "__proto__")) as [->|Hkey].
    - apply transformAttributeValues_proto.
    - rewrite transformAttributeValues_lookup, mergedAttributes_lookup by done.
      unfold by_precedence; simpl. rewrite Hattrs, lookup_empty.
      destruct (labels (resource span) !! key) as [l|]; simpl.
      + apply convert_label.
      + by destruct (svcAttributes projectId !! key). }
  repeat split.
  - unfold out; simpl. by rewrite Hlinks.
  - unfold out; simpl. by rewrite Hevents.
  - eexists; split; [reflexivity|]. split; [exact Hlookup|]. split.
    + rewrite Hlookup, decide_False by done.
      destruct (labels (resource span) !! "project_id"); [eauto|].
      rewrite serviceAttributes_project_id. simpl. eauto.
    + rewrite Hlookup, decide_False by done.
      destruct (labels (resource span) !! AGENT_LABEL_KEY); [eauto|].
      rewrite serviceAttributes_agent. simpl. eauto.
  - intros l [Hl|Hl]; unfold transformLink; simpl; by rewrite Hl.
  - intros e [He|He]; unfold transformTimeEvent; simpl; by rewrite He.
Qed.

(** C8. [sameProcessAsParentSpan] is the negation of the span's remoteness
    flag: it is true exactly when the flag is false. *)
Theorem sameProcess_negates_isRemote projectId (span : ReadableSpan) :
  ∃ b : bool,
    cloudtracev2.sameProcessAsParentSpan (transformer projectId span) =
      Some {| cloudtracev2.bv_value := b |}
    ∧ b = negb (truthy_flag (isRemote (spanContext span)))
    ∧ (b = true ↔ truthy_flag (isRemote (spanContext span)) = false)
    ∧ match isRemote (spanContext span) with
      | Some flag => b = negb flag ∧ (b = true ↔ flag = false)
      | None => b = true
      end.
Proof.
  eexists; split; [reflexivity|].
  destruct (isRemote (spanContext span)) as [[]|]; simpl; intuition congruence.
Qed.

(** C10. A span whose context carries no [isRemote] is transformed like a
    local one: [sameProcessAsParentSpan] is true. *)
Theorem sameProcess_without_isRemote projectId (span : ReadableSpan) :
  isRemote (spanContext span) = None →
  cloudtracev2.sameProcessAsParentSpan (transformer projectId span) =
    Some {| cloudtracev2.bv_value := true |}.
Proof. intros H. unfold getReadableSpanTransformer; simpl. by rewrite H. Qed.

End SpanProperties.

(** ** Rounding of numeric attributes *)

Lemma to_Z_of_Z (r : Z) : to_Z (of_Z r) = Some r.
Proof. destruct r; simpl; f_equal; lia. Qed.



Lemma round_div_exact (n d : Z) :
  0 < d → n mod d = 0 → (2 * n + d) / (2 * d) = n / d.
Proof.
  intros Hd Hmod.
  pose proof (Z.div_mod n d ltac:(lia)) as Hn. rewrite Hmod in Hn.
  set (k := n / d) in *. clearbody k. subst n.
  replace (2 * (d * k + 0) + d) with (k * (2 * d) + d) by lia.
  rewrite Z.div_add_l by lia. rewrite Z.div_small by lia. lia.
Qed.

Lemma Qfloor_half_dyadic (n d : Z) :
  0 < d → Qfloor ((n # Z.to_pos d) + (1#2)) = (2 * n + d) / (2 * d).
Proof.
  intros Hd. unfold Qfloor, Qplus; cbn [Qnum Qden].
  rewrite Pos2Z.inj_mul, Z2Pos.id by lia. f_equal; lia.
Qed.

Lemma Math_round_floor (x : number) (q : Q) :
  to_Q x = Some q → to_Z (Math_round x) = Some (Qfloor (q + (1#2))).
Proof.
  destruct x as [s|s| |s m e]; try discriminate.
  - intros [= <-]. reflexivity.
  - unfold to_Q, finite_to_Q, Math_round, to_Z.
    destruct (Z.leb_spec 0 e) as [He|He]; intros [= <-].
    + rewrite (proj2 (Z.leb_le 0 e) He). f_equal.
      unfold Qfloor; simpl. change (Z.pos (1 * 2)) with 2.
      rewrite Z.mul_1_r, Z.div_add_l by lia. change (1 / 2) with 0. lia.
    + set (n := signed s m). set (d := 2 ^ (- e)).
      assert (Hd : 0 < d) by (apply Z.pow_pos_nonneg; lia).
      rewrite (Qfloor_half_dyadic n d Hd).
      destruct (Z.eqb_spec (n mod d) 0) as [Hmod|Hmod].
      * rewrite (proj2 (Z.leb_gt 0 e) He).
        fold n d. rewrite (proj2 (Z.eqb_eq _ _) Hmod).
        by rewrite round_div_exact.
      * destruct (Z.eqb_spec ((2 * n + d) / (2 * d)) 0) as [->|_].
        -- reflexivity.
        -- apply to_Z_of_Z.
Qed.


(** ** The exporter *)

Lemma resolved_projectId_None (self : TraceExporter) :
  resolved_projectId self = None ↔
  truthy_string (match _projectId self with Pending v | Settled v => v end) = false.
Proof.
  unfold resolved_projectId.
  destruct (_projectId self) as [[s|]|[s|]]; simpl;
    try destruct (String.eqb s ""); simpl; split; congruence.
Qed.

Lemma resolved_projectId_Some (self : TraceExporter) (pid : string) :
  resolved_projectId self = Some pid ↔
  match _projectId self with Pending v | Settled v => v end = Some pid
  ∧ String.eqb pid "" = false.
Proof.
  unfold resolved_projectId.
  destruct (_projectId self) as [[s|]|[s|]]; simpl;
    try destruct (String.eqb s "") eqn:Hs; simpl; split;
    try (intros [H1 H2]); try congruence;
    try (intros [= <-]; by split).
Qed.

Lemma constructor_rejected (err : Error) :
  resolved_projectId (fst (constructor (inl err))) = None.
Proof. reflexivity. Qed.

Lemma constructor_no_id : resolved_projectId (fst (constructor (inr ""))) = None.
Proof. reflexivity. Qed.

Section ExporterProperties.

Variables (CORE_VERSION VERSION : string).

Ltac run_method :=
  unfold export, _batchWriteSpans, _getClient, call_batchWriteSpans,
    set_projectId, set_traceServiceClient, emit, this,
    mbind, mret, Method_bind, Method_ret; simpl.

Lemma export_unresolved (w : World) (spans : list ReadableSpan)
    (self : TraceExporter) :
  resolved_projectId self = None →
  events_of (export CORE_VERSION VERSION w spans self) = [ResultCallback FAILED_NOT_RETRYABLE]
  ∧ resolved_projectId (state_of (export CORE_VERSION VERSION w spans self)) = None
  ∧ _traceServiceClient (state_of (export CORE_VERSION VERSION w spans self)) =
    _traceServiceClient self.
Proof.
  intros H. pose proof (proj1 (resolved_projectId_None self) H) as Hv.
  destruct self as [[v|v] client]; simpl in *; run_method; rewrite Hv; simpl;
    (split; [done|]); (split; [|done]);
    apply resolved_projectId_None; by simpl.
Qed.

Lemma export_resolved_callbacks (w : World) (spans : list ReadableSpan)
    (self : TraceExporter) (pid : string) :
  resolved_projectId self = Some pid →
  callbacks (events_of (export CORE_VERSION VERSION w spans self)) =
  [match _traceServiceClient self, auth_getClient w with
   | None, inl _ => FAILED_NOT_RETRYABLE
   | _, _ =>
       match rpc_error w with
       | Some _ => FAILED_RETRYABLE
       | None => SUCCESS
       end
   end].
Proof.
  intros H. apply resolved_projectId_Some in H as [Hv Hne].
  destruct self as [[v|v] [client|]], w as [[err|creds] [rerr|]];
    simpl in *; subst v; run_method; rewrite Hne; reflexivity.
Qed.

Lemma export_build_failure (w : World) (spans : list ReadableSpan)
    (self : TraceExporter) (pid : string) :
  resolved_projectId self = Some pid →
  _traceServiceClient self = None →
  AuthGetClient ∈ events_of (export CORE_VERSION VERSION w spans self)
  ∧ ((∃ err, auth_getClient w = inl err) →
     callbacks (events_of (export CORE_VERSION VERSION w spans self)) = [FAILED_NOT_RETRYABLE]
     ∧ resolved_projectId (state_of (export CORE_VERSION VERSION w spans self)) = Some pid
     ∧ _traceServiceClient (state_of (export CORE_VERSION VERSION w spans self)) = None).
Proof.
  intros H Hc. pose proof H as Hpid.
  apply resolved_projectId_Some in H as [Hv Hne].
  destruct self as [[v|v] client], w as [[err|creds] [rerr|]];
    simpl in *; subst v client; run_method; rewrite Hne; simpl;
    (split; [set_solver|]); intros [err' [=]];
    (split; [done|]); (split; [|done]);
    apply resolved_projectId_Some; by simpl.
Qed.

Lemma exports_cons (w : World) (spans : list ReadableSpan)
    (calls : list (World * list ReadableSpan)) (self : TraceExporter) :
  exports CORE_VERSION VERSION ((w, spans) :: calls) self =
  (fst (exports CORE_VERSION VERSION calls
          (state_of (export CORE_VERSION VERSION w spans self))),
   events_of (export CORE_VERSION VERSION w spans self) ::
   snd (exports CORE_VERSION VERSION calls
          (state_of (export CORE_VERSION VERSION w spans self)))).
Proof.
  simpl. unfold state_of, events_of.
  destruct (export CORE_VERSION VERSION w spans self) as [[u self1] evs]; simpl.
  by destruct (exports CORE_VERSION VERSION calls self1).
Qed.

Lemma exports_build_failures (calls : list (World * list ReadableSpan))
    (w : World) (spans : list ReadableSpan) (self : TraceExporter)
    (pid : string) :
  resolved_projectId self = Some pid →
  _traceServiceClient self = None →
  Forall (λ c, ∃ err, auth_getClient c.1 = inl err) calls →
  Forall (λ evs, AuthGetClient ∈ evs)
    (snd (exports CORE_VERSION VERSION (calls ++ [(w, spans)]) self)).
Proof.
  intros Hpid Hclient Hcalls. revert self Hpid Hclient.
  induction Hcalls as [|[w0 spans0] calls Hw0 _ IH]; intros self Hpid Hclient.
  - simpl app. rewrite exports_cons; simpl.
    repeat constructor. by apply (export_build_failure w spans self pid).
  - simpl app. rewrite exports_cons; simpl.
    destruct (export_build_failure w0 spans0 self pid Hpid Hclient)
      as [Hin Hfail].
    destruct (Hfail Hw0) as (_ & Hpid1 & Hclient1).
    constructor; [done|]. by apply IH.
Qed.

Lemma exports_unresolved (calls : list (World * list ReadableSpan))
    (self : TraceExporter) :
  resolved_projectId self = None →
  Forall (λ evs, evs = [ResultCallback FAILED_NOT_RETRYABLE])
    (snd (exports CORE_VERSION VERSION calls self))
  ∧ resolved_projectId (fst (exports CORE_VERSION VERSION calls self)) = None.
Proof.
  revert self. induction calls as [|[w spans] calls IH]; intros self Hself.
  - by split; [constructor|].
  - rewrite exports_cons; simpl.
    destruct (export_unresolved w spans self Hself) as (Hevs & Hnext & _).
    destruct (IH _ Hnext) as [Hrest Hlast].
    split; [by constructor|done].
Qed.

Lemma exports_length (calls : list (World * list ReadableSpan))
    (self : TraceExporter) :
  length (snd (exports CORE_VERSION VERSION calls self)) = length calls.
Proof.
  revert self. induction calls as [|[w spans] calls IH]; intros self; [done|].
  rewrite exports_cons; simpl. by rewrite IH.
Qed.

(** C4. Every [export] call hands exactly one result to its callback:
    non-retryable failure when the rpc client has to be built and building
    it fails, otherwise retryable failure when the batched write reports an
    error and success when it reports none (and non-retryable failure when
    there is no project id). *)
Theorem export_outcome_classified (w : World) (spans : list ReadableSpan)
    (self : TraceExporter) :
  ∃ result : ExportResult,
    callbacks (events_of (export CORE_VERSION VERSION w spans self)) = [result]
    ∧ match resolved_projectId self with
      | None => result = FAILED_NOT_RETRYABLE
      | Some _ =>
          match _traceServiceClient self, auth_getClient w with
          | None, inl _ => result = FAILED_NOT_RETRYABLE
          | _, _ =>
              match rpc_error w with
              | Some _ => result = FAILED_RETRYABLE
              | None => result = SUCCESS
              end
          end
      end.
Proof.
  destruct (resolved_projectId self) as [pid|] eqn:Hpid.
  - eexists; split; [by apply (export_resolved_callbacks w spans self pid)|].
    destruct (_traceServiceClient self), (auth_getClient w), (rpc_error w);
      reflexivity.
  - exists FAILED_NOT_RETRYABLE; split; [|done].
    destruct (export_unresolved w spans self Hpid) as (-> & _). reflexivity.
Qed.

(** C5. On an exporter whose project id resolution failed or gave no id,
    [export] calls the callback with non-retryable failure and does nothing
    else: no client is built and no request is sent. *)
Theorem export_without_projectId (w : World) (spans : list ReadableSpan)
    (self : TraceExporter) :
  resolved_projectId self = None →
  events_of (export CORE_VERSION VERSION w spans self) =
    [ResultCallback FAILED_NOT_RETRYABLE]
  ∧ callbacks (events_of (export CORE_VERSION VERSION w spans self)) =
    [FAILED_NOT_RETRYABLE]
  ∧ filter (λ e, is_network e = true)
      (events_of (export CORE_VERSION VERSION w spans self)) = []
  ∧ _traceServiceClient (state_of (export CORE_VERSION VERSION w spans self)) =
    _traceServiceClient self.
Proof.
  intros H. destruct (export_unresolved w spans self H) as (Hevs & _ & Hclient).
  rewrite Hevs. by repeat split.
Qed.

(** C6. A failure to build the client is not kept: on an instance with a
    project id and no client, after any number of calls whose client
    construction failed, the next call attempts the construction again.  A
    failed project id resolution is kept: every later call on that instance
    only reports non-retryable failure, and the resolution is not attempted
    again. *)
Theorem failure_caching (calls : list (World * list ReadableSpan))
    (w : World) (spans : list ReadableSpan) (self : TraceExporter)
    (pid : string)
    (calls' : list (World * list ReadableSpan)) (self' : TraceExporter) :
  resolved_projectId self = Some pid →
  _traceServiceClient self = None →
  Forall (λ c, ∃ err, auth_getClient c.1 = inl err) calls →
  resolved_projectId self' = None →
  Forall (λ evs, AuthGetClient ∈ evs)
    (snd (exports CORE_VERSION VERSION (calls ++ [(w, spans)]) self))
  ∧ Forall (λ evs, evs = [ResultCallback FAILED_NOT_RETRYABLE]
                   ∧ AuthGetProjectId ∉ evs)
      (snd (exports CORE_VERSION VERSION calls' self'))
  ∧ length (snd (exports CORE_VERSION VERSION calls' self')) = length calls'
  ∧ resolved_projectId (fst (exports CORE_VERSION VERSION calls' self')) = None.
Proof.
  intros Hpid Hclient Hcalls Hself'.
  split; [by apply (exports_build_failures calls w spans self pid)|].
  destruct (exports_unresolved calls' self' Hself') as [Hevs Hlast].
  split; [|split; [apply exports_length|done]].
  eapply Forall_impl; [exact Hevs|].
  intros evs ->. split; [done|]. by intros ?%list_elem_of_singleton.
Qed.

End ExporterProperties.

(** ** The properties on the test suite's inputs *)

(** The test suite's span: [cost: 112.12] is exported as [intValue: 112],
    and nothing is dropped. *)
Example transform_readableSpan_cost :
  (cloudtracev2.s_attributes (Fixtures.transformer Fixtures.readableSpan)
     ≫= λ a, cloudtracev2.attributeMap a !! "cost") =
    Some {| cloudtracev2.stringValue := None;
            cloudtracev2.intValue := Some (of_Z 112);
            cloudtracev2.boolValue := None |}
  ∧ (cloudtracev2.droppedAttributesCount <$>
       cloudtracev2.s_attributes (Fixtures.transformer Fixtures.readableSpan)) =
    Some 0.
Proof. split; vm_compute; reflexivity. Qed.

Example Math_round_halfway :
  Math_round (S754_finite false 5 (-1)) = of_Z 3
  ∧ Math_round (S754_finite true 5 (-1)) = of_Z (-2)
  ∧ Math_round (S754_finite true 1 (-1)) = S754_zero true.
Proof. repeat split. Qed.

Example Math_round_not_finite :
  Math_round NaN = NaN
  ∧ Math_round Infinity = Infinity
  ∧ Math_round NegInfinity = NegInfinity.
Proof. repeat split. Qed.





(** C7 as stated fails: a span without attributes, links and events, on an
    empty resource, has an [attributes] field whose map is not empty. *)
Lemma empty_attributes_map_fails :
  attributes Fixtures.bareSpan = ∅
  ∧ links Fixtures.bareSpan = []
  ∧ events Fixtures.bareSpan = []
  ∧ ¬ ∃ out,
        cloudtracev2.s_attributes (Fixtures.transformer Fixtures.bareSpan) =
          Some out
        ∧ cloudtracev2.attributeMap out = ∅.
Proof.
  repeat (split; [reflexivity|]).
  intros (out & [= <-] & H).
  apply (f_equal (λ m, size m)) in H. vm_compute in H. discriminate.
Qed.

Lemma empty_collections_present_witness :
  attributes Fixtures.bareSpan = ∅
  ∧ links Fixtures.bareSpan = []
  ∧ events Fixtures.bareSpan = []
  ∧ cloudtracev2.s_links (Fixtures.transformer Fixtures.bareSpan) =
    Some {| cloudtracev2.link := []; cloudtracev2.droppedLinksCount := 0 |}.
Proof.
  repeat (split; [reflexivity|]).
  exact (proj1 (empty_collections_present Fixtures.CORE_VERSION Fixtures.VERSION
                  "project-id" Fixtures.bareSpan eq_refl eq_refl eq_refl)).
Defined.



Lemma sameProcess_without_isRemote_witness :
  isRemote (spanContext Fixtures.unflaggedSpan) = None
  ∧ cloudtracev2.sameProcessAsParentSpan
      (Fixtures.transformer Fixtures.unflaggedSpan) =
    Some {| cloudtracev2.bv_value := true |}.
Proof.
  split; [reflexivity|].
  apply (sameProcess_without_isRemote Fixtures.CORE_VERSION Fixtures.VERSION
           "project-id" Fixtures.unflaggedSpan).
  reflexivity.
Defined.

Lemma export_without_projectId_witness :
  resolved_projectId Fixtures.unresolvedExporter = None
  ∧ events_of
      (export Fixtures.CORE_VERSION Fixtures.VERSION Fixtures.worldOk
         [Fixtures.readableSpan] Fixtures.unresolvedExporter) =
    [ResultCallback FAILED_NOT_RETRYABLE].
Proof.
  split; [reflexivity|].
  exact (proj1 (export_without_projectId Fixtures.CORE_VERSION Fixtures.VERSION
                  Fixtures.worldOk [Fixtures.readableSpan]
                  Fixtures.unresolvedExporter eq_refl)).
Defined.

Lemma failure_caching_witness :
  resolved_projectId Fixtures.resolvedExporter = Some "project-id"
  ∧ _traceServiceClient Fixtures.resolvedExporter = None
  ∧ resolved_projectId Fixtures.unresolvedExporter = None
  ∧ Forall (λ evs, AuthGetClient ∈ evs)
      (snd (exports Fixtures.CORE_VERSION Fixtures.VERSION
              ([(Fixtures.worldAuthFails, [Fixtures.readableSpan])] ++
               [(Fixtures.worldOk, [Fixtures.readableSpan])])
              Fixtures.resolvedExporter))
  ∧ Forall (λ evs, evs = [ResultCallback FAILED_NOT_RETRYABLE]
                   ∧ AuthGetProjectId ∉ evs)
      (snd (exports Fixtures.CORE_VERSION Fixtures.VERSION
              [(Fixtures.worldOk, [Fixtures.readableSpan]);
               (Fixtures.worldRpcFails, [])]
              Fixtures.unresolvedExporter)).
Proof.
  repeat (split; [reflexivity|]).
  assert (Hfails : Forall (λ c : World * list ReadableSpan,
                     ∃ err, auth_getClient c.1 = inl err)
                     [(Fixtures.worldAuthFails, [Fixtures.readableSpan])]).
  { repeat constructor. exists Fixtures.authError. reflexivity. }
  pose proof (failure_caching Fixtures.CORE_VERSION Fixtures.VERSION
    [(Fixtures.worldAuthFails, [Fixtures.readableSpan])]
    Fixtures.worldOk [Fixtures.readableSpan] Fixtures.resolvedExporter
    "project-id"
    [(Fixtures.worldOk, [Fixtures.readableSpan]); (Fixtures.worldRpcFails, [])]
    Fixtures.unresolvedExporter eq_refl eq_refl Hfails eq_refl) as (Ha & Hb & _).
  exact (conj Ha Hb).
Defined.

(** ** Further properties of the transformer *)

Lemma mergedAttributes_request_only (requestAttributes : option Attributes) :
  mergedAttributes requestAttributes None None =
  delete "__proto__" (default ∅ requestAttributes).
Proof.
  unfold mergedAttributes; simpl. rewrite fmap_empty. apply Object_assign_one.
Qed.

Lemma transformLinks_Forall2 (ls : list Link) :
  Forall2
    (λ l o,
       cloudtracev2.l_traceId o = lc_traceId (context l)
       ∧ cloudtracev2.l_spanId o = lc_spanId (context l)
       ∧ cloudtracev2.l_type o = cloudtracev2.TYPE_UNSPECIFIED
       ∧ cloudtracev2.l_attributes o =
         Some (transformAttributes (link_attributes l) None None))
    ls (cloudtracev2.link (transformLinks ls)).
Proof. induction ls as [|l ls IH]; simpl; constructor; auto. Qed.

Lemma transformTimeEvents_Forall2 (es : list TimedEvent) :
  Forall2
    (λ e o,
       cloudtracev2.time o =
         Some {| cloudtracev2.seconds := fst (ev_time e);
                 cloudtracev2.nanos := snd (ev_time e) |}
       ∧ cloudtracev2.annotation o =
         Some {| cloudtracev2.description :=
                   Some {| cloudtracev2.ts_value := ev_name e;
                           cloudtracev2.truncatedByteCount := 0 |};
                 cloudtracev2.a_attributes :=
                   Some (transformAttributes (ev_attributes e) None None) |})
    es (cloudtracev2.timeEvent (transformTimeEvents es)).
Proof. induction es as [|e es IH]; simpl; constructor; auto. Qed.

(** X4. The attributes of a link or of an event are transformed on their
    own: no service attribute and no resource label is merged into them.
    The output map holds the link's (event's) attributes of a supported
    type other than one named [__proto__], and nothing else; the dropped
    count is the number of its other attributes, one named [__proto__] not
    counted; absent attributes count as none. *)
Theorem link_event_attributes_only (attrs : option Attributes) :
  let out := transformAttributes attrs None None in
  (∀ key : string,
     cloudtracev2.attributeMap out !! key =
     if decide (key = "__proto__") then None
     else default ∅ attrs !! key ≫= convert)
  ∧ dom (cloudtracev2.attributeMap out) ⊆ dom (default ∅ attrs) ∖ {["__proto__"]}
  ∧ cloudtracev2.droppedAttributesCount out =
    Z.of_nat (size (filter (λ kv, kv.1 ≠ "__proto__" ∧ supported kv.2 ≠ true)
                      (default ∅ attrs))).
Proof.
  intros out.
  assert (Hlookup : ∀ key : string,
    cloudtracev2.attributeMap out !! key =
    if decide (key = "__proto__") then None
    else default ∅ attrs !! key ≫= convert).
  { intros key. unfold out. rewrite transformAttributes_map.
    destruct (decide (key = "__proto__")) as [->|Hkey].
    - apply transformAttributeValues_proto.
    - rewrite transformAttributeValues_lookup by done.
      by rewrite mergedAttributes_request_only, lookup_delete_ne. }
  split; [done|]. split.
  - intros key [av Hav]%elem_of_dom. rewrite Hlookup in Hav.
    destruct (decide (key = "__proto__")) as [->|Hkey]; [discriminate|].
    apply elem_of_difference. split.
    + apply elem_of_dom. destruct (default ∅ attrs !! key); [eauto|discriminate].
    + by intros ?%elem_of_singleton.
  - unfold out. rewrite dropped_unsupported, mergedAttributes_request_only.
    f_equal. f_equal. apply map_filter_strong_ext_1. intros key v; simpl.
    rewrite lookup_delete_Some. split.
    + intros (Hv & Hkey & Hlookup'). split; [|done].
      split; [congruence|]. intros Hs. apply Hv. split; [congruence|done].
    + intros ((Hkey & Hv) & Hlookup'). split; [|split; [congruence|done]].
      intros [_ Hs]. by apply Hv.
Qed.

(** X5. The dropped count is never negative and never more than the number
    of merged keys: kept keys and dropped keys add up to the merged keys. *)
Theorem dropped_count_bounds
    (requestAttributes serviceAttributes : option Attributes)
    (resource : option Resource) :
  let merged := mergedAttributes requestAttributes serviceAttributes resource in
  let out := transformAttributes requestAttributes serviceAttributes resource in
  0 <= cloudtracev2.droppedAttributesCount out <= Z.of_nat (size merged)
  ∧ Z.of_nat (size (cloudtracev2.attributeMap out)) +
    cloudtracev2.droppedAttributesCount out = Z.of_nat (size merged).
Proof.
  intros merged out. unfold out.
  rewrite transformAttributes_dropped, transformAttributes_map.
  fold merged. unfold keys_length.
  rewrite size_transformAttributeValues.
  pose proof (map_size_filter
                (λ kv : string * value,
                   kv.1 ≠ "__proto__" ∧ supported kv.2 = true) merged).
  lia.
Qed.

(** X6. Nothing is dropped exactly when every key of the merged mapping
    is other than [__proto__] and has a string, a number or a boolean as
    its value. *)
Theorem nothing_dropped_iff
    (requestAttributes serviceAttributes : option Attributes)
    (resource : option Resource) :
  cloudtracev2.droppedAttributesCount
    (transformAttributes requestAttributes serviceAttributes resource) = 0
  ↔ map_Forall (λ key v, key ≠ "__proto__" ∧ supported v = true)
      (mergedAttributes requestAttributes serviceAttributes resource).
Proof.
  rewrite dropped_unsupported.
  set (merged := mergedAttributes requestAttributes serviceAttributes resource).
  change 0 with (Z.of_nat 0).
  rewrite Nat2Z.inj_iff, map_size_empty_iff, map_empty_filter.
  unfold map_Forall; simpl. split; intros H key v Hkey.
  - specialize (H key v Hkey). by apply dec_stable.
  - specialize (H key v Hkey). intros Hv. by apply Hv.
Qed.

Section SpanExtras.

Variables (CORE_VERSION VERSION : string).

Local Abbreviation transformer := (getReadableSpanTransformer CORE_VERSION VERSION).
Local Abbreviation svcAttributes := (serviceAttributes CORE_VERSION VERSION).



(** X1. The output's [parentSpanId] is the span's, copied as it is; a span
    that has none, or an empty one, gets the empty string. *)
Theorem parentSpanId_copied projectId (span : ReadableSpan) :
  cloudtracev2.s_parentSpanId (transformer projectId span) =
  default "" (parentSpanId span).
Proof.
  unfold getReadableSpanTransformer; simpl.
  destruct (parentSpanId span) as [s|]; simpl; [|done].
  by destruct (String.eqb_spec s "") as [->|].
Qed.

(** X2. Every link of the span is exported, in order, with the trace id and
    span id of its context, the type [TYPE_UNSPECIFIED] and an [Attributes]
    message of its own; no link is counted as dropped. *)
Theorem links_exported_in_order projectId (span : ReadableSpan) :
  ∃ out, cloudtracev2.s_links (transformer projectId span) = Some out
    ∧ cloudtracev2.droppedLinksCount out = 0
    ∧ length (cloudtracev2.link out) = length (links span)
    ∧ Forall2
        (λ l o,
           cloudtracev2.l_traceId o = lc_traceId (context l)
           ∧ cloudtracev2.l_spanId o = lc_spanId (context l)
           ∧ cloudtracev2.l_type o = cloudtracev2.TYPE_UNSPECIFIED
           ∧ cloudtracev2.l_attributes o =
             Some (transformAttributes (link_attributes l) None None))
        (links span) (cloudtracev2.link out).
Proof.
  eexists; split; [reflexivity|]. split; [reflexivity|].
  pose proof (transformLinks_Forall2 (links span)) as H.
  split; [|exact H]. symmetry. by eapply Forall2_length.
Qed.

(** X3. Every event of the span is exported, in order, as a time event that
    has its time (seconds and nanoseconds as they are) and an annotation
    with its name as description and an [Attributes] message of its own. *)
Theorem events_exported_in_order projectId (span : ReadableSpan) :
  ∃ out, cloudtracev2.s_timeEvents (transformer projectId span) = Some out
    ∧ length (cloudtracev2.timeEvent out) = length (events span)
    ∧ Forall2
        (λ e o,
           cloudtracev2.time o =
             Some {| cloudtracev2.seconds := fst (ev_time e);
                     cloudtracev2.nanos := snd (ev_time e) |}
           ∧ cloudtracev2.annotation o =
             Some {| cloudtracev2.description :=
                       Some {| cloudtracev2.ts_value := ev_name e;
                               cloudtracev2.truncatedByteCount := 0 |};
                     cloudtracev2.a_attributes :=
                       Some (transformAttributes (ev_attributes e) None None) |})
        (events span) (cloudtracev2.timeEvent out).
Proof.
  eexists; split; [reflexivity|].
  pose proof (transformTimeEvents_Forall2 (events span)) as H.
  split; [|exact H]. symmetry. by eapply Forall2_length.
Qed.






(** X8. Every exported span carries the keys [project_id] and [g.co/agent]:
    with the resource's label of that name when it has one, otherwise with
    the project id and the agent string.  An attribute of the span itself
    under one of these keys is always overwritten. *)
Theorem service_attributes_always_present projectId (span : ReadableSpan) :
  ∃ out, cloudtracev2.s_attributes (transformer projectId span) = Some out
    ∧ cloudtracev2.attributeMap out !! "project_id" =
      Some (valueToAttributeValue
              (match labels (resource span) !! "project_id" with
               | Some l => label_value l
               | None => Str projectId
               end))
    ∧ cloudtracev2.attributeMap out !! AGENT_LABEL_KEY =
      Some (valueToAttributeValue
              (match labels (resource span) !! AGENT_LABEL_KEY with
               | Some l => label_value l
               | None => Str (AGENT_LABEL_VALUE CORE_VERSION VERSION)
               end))
    ∧ (2 <= size (cloudtracev2.attributeMap out))%nat.
Proof.
  destruct (span_attributes_lookup CORE_VERSION VERSION projectId span
              "project_id") as (out & Hout & Hpid); [discriminate|].
  destruct (span_attributes_lookup CORE_VERSION VERSION projectId span
              AGENT_LABEL_KEY) as (out' & Hout' & Hagent);
    [unfold AGENT_LABEL_KEY; discriminate|].
  rewrite Hout in Hout'. injection Hout' as <-.
  assert (Hp : cloudtracev2.attributeMap out !! "project_id" =
      Some (valueToAttributeValue
              (match labels (resource span) !! "project_id" with
               | Some l => label_value l
               | None => Str projectId
               end))).
  { rewrite Hpid. unfold by_precedence.
    destruct (labels (resource span) !! "project_id"); simpl.
    - apply convert_label.
    - reflexivity. }
  assert (Ha : cloudtracev2.attributeMap out !! AGENT_LABEL_KEY =
      Some (valueToAttributeValue
              (match labels (resource span) !! AGENT_LABEL_KEY with
               | Some l => label_value l
               | None => Str (AGENT_LABEL_VALUE CORE_VERSION VERSION)
               end))).
  { rewrite Hagent. unfold by_precedence.
    destruct (labels (resource span) !! AGENT_LABEL_KEY); simpl.
    - apply convert_label.
    - reflexivity. }
  exists out. split; [done|]. split; [done|]. split; [done|].
  rewrite <- (insert_id _ _ _ Hp), <- (insert_delete_eq (cloudtracev2.attributeMap out)).
  rewrite map_size_insert_None by apply lookup_delete_eq.
  assert (Ha' : delete "project_id" (cloudtracev2.attributeMap out)
                  !! AGENT_LABEL_KEY = Some (valueToAttributeValue
              (match labels (resource span) !! AGENT_LABEL_KEY with
               | Some l => label_value l
               | None => Str (AGENT_LABEL_VALUE CORE_VERSION VERSION)
               end))).
  { by rewrite lookup_delete_ne. }
  assert (Hne : delete "project_id" (cloudtracev2.attributeMap out) ≠ ∅).
  { intros Hempty. by rewrite Hempty, lookup_empty in Ha'. }
  apply map_size_non_empty_iff in Hne. lia.
Qed.

End SpanExtras.

(** ** Further properties of attribute values *)

Lemma Math_round_integral (x : number) (z : Z) :
  to_Z x = Some z → Math_round x = x.
Proof.
  destruct x as [s|s| |s m e]; try reflexivity.
  unfold to_Z, Math_round.
  destruct (0 <=? e); [reflexivity|].
  destruct (signed s m mod 2 ^ (- e) =? 0); [reflexivity|discriminate].
Qed.

Lemma Math_round_idempotent (x : number) :
  Math_round (Math_round x) = Math_round x.
Proof.
  destruct x as [s|s| |s m e]; try reflexivity.
  unfold Math_round at 2 3.
  destruct (0 <=? e) eqn:He; [by simpl; rewrite He|].
  destruct (signed s m mod 2 ^ (- e) =? 0) eqn:Hmod; [by simpl; rewrite He, Hmod|].
  destruct ((2 * signed s m + 2 ^ (- e)) / (2 * 2 ^ (- e)) =? 0); [reflexivity|].
  by destruct ((2 * signed s m + 2 ^ (- e)) / (2 * 2 ^ (- e))).
Qed.

(** X9. Every value of an output attribute map has exactly one field of its
    oneof set. *)
Theorem attribute_values_one_field
    (requestAttributes serviceAttributes : option Attributes)
    (resource : option Resource) :
  map_Forall (λ _ av, fields_set av = 1%nat)
    (cloudtracev2.attributeMap
       (transformAttributes requestAttributes serviceAttributes resource)).
Proof.
  intros key av. rewrite transformAttributes_map.
  destruct (decide (key = "__proto__")) as [->|Hkey].
  { by rewrite transformAttributeValues_proto. }
  rewrite transformAttributeValues_lookup by done.
  destruct (mergedAttributes requestAttributes serviceAttributes resource
              !! key) as [v|]; simpl; [|discriminate].
  destruct v as [s|n|b|[]]; unfold convert; simpl;
    intros [= <-]; reflexivity.
Qed.

(** X10. The conversion of supported values loses nothing but the fraction
    of a number: two supported values with the same conversion are the same
    string or the same boolean, or two numbers that round to the same. *)
Theorem conversion_injective (v1 v2 : value) :
  supported v1 = true → supported v2 = true →
  valueToAttributeValue v1 = valueToAttributeValue v2 →
  match v1, v2 with
  | Num a, Num b => Math_round a = Math_round b
  | _, _ => v1 = v2
  end.
Proof.
  destruct v1 as [s1|n1|b1|[]], v2 as [s2|n2|b2|[]];
    intros H1 H2 Heq; try discriminate H1; try discriminate H2;
    cbv [valueToAttributeValue stringToTruncatableString AttributeValue_create]
      in Heq; simpl in Heq; try discriminate Heq; congruence.
Qed.

(** X11. A number attribute that is an integer is stored as it is. *)
Theorem integer_attribute_unchanged (x : number) (z : Z) :
  to_Z x = Some z →
  valueToAttributeValue (Num x) =
    {| cloudtracev2.stringValue := None;
       cloudtracev2.intValue := Some x;
       cloudtracev2.boolValue := None |}.
Proof.
  intros Hz. unfold valueToAttributeValue; simpl.
  by rewrite (Math_round_integral x z Hz).
Qed.

(** X12. Rounding is idempotent: a stored number, sent through the
    conversion again, is stored unchanged. *)
Theorem stored_number_stable (x : number) :
  valueToAttributeValue (Num (Math_round x)) = valueToAttributeValue (Num x).
Proof.
  unfold valueToAttributeValue; simpl. by rewrite Math_round_idempotent.
Qed.

(** X13. Rounding keeps the order of finite numbers: of two number
    attributes the smaller one is never stored as the greater integer. *)
Theorem rounding_monotone (x y : number) (qx qy : Q) :
  to_Q x = Some qx → to_Q y = Some qy → (qx <= qy)%Q →
  ∃ rx ry : Z,
    cloudtracev2.intValue (valueToAttributeValue (Num x)) ≫= to_Z = Some rx
    ∧ cloudtracev2.intValue (valueToAttributeValue (Num y)) ≫= to_Z = Some ry
    ∧ rx <= ry.
Proof.
  intros Hx Hy Hle.
  exists (Qfloor (qx + (1#2))), (Qfloor (qy + (1#2))).
  split; [by apply Math_round_floor|]. split; [by apply Math_round_floor|].
  apply Qfloor_resp_le. lra.
Qed.

(** ** Further properties of the exporter *)

Section ExporterExtras.

Variables (CORE_VERSION VERSION : string).

(** The request [export] builds for a project id and a list of spans. *)
Local Abbreviation request_for pid spans :=
  {| cloudtracev2.r_name := "projects/" +:+ pid;
     cloudtracev2.r_spans :=
       map (getReadableSpanTransformer CORE_VERSION VERSION pid) spans |}.

(** The client [_getClient] builds from credentials. *)
Local Abbreviation client_for creds :=
  {| host := "cloudtrace.googleapis.com"; credentials := creds |}.

Ltac run_export :=
  unfold export, _batchWriteSpans, _getClient, call_batchWriteSpans,
    set_projectId, set_traceServiceClient, emit, this,
    mbind, mret, Method_bind, Method_ret; simpl.

Ltac by_cases self w :=
  let pid := fresh "pid" in
  let Hpid := fresh "Hpid" in
  let Hv := fresh "Hv" in
  let Hne := fresh "Hne" in
  destruct (resolved_projectId self) as [pid|] eqn:Hpid;
  [ apply resolved_projectId_Some in Hpid as [Hv Hne];
    destruct self as [[? | ?] [? | ]], w as [[? | ?] [? | ]];
    simpl in *; subst; run_export; rewrite Hne; simpl
  | apply resolved_projectId_None in Hpid;
    destruct self as [[? | ?] ?]; simpl in *; run_export; rewrite Hpid; simpl ].

Lemma export_projectId_stable (w : World) (spans : list ReadableSpan)
    (self : TraceExporter) :
  resolved_projectId (state_of (export CORE_VERSION VERSION w spans self)) =
  resolved_projectId self.
Proof.
  destruct (resolved_projectId self) as [pid|] eqn:Hpid.
  - pose proof Hpid as H. apply resolved_projectId_Some in H as [Hv Hne].
    destruct self as [[v|v] [c|]], w as [[err|creds] [rerr|]];
      simpl in *; subst; run_export; rewrite Hne; simpl;
      apply resolved_projectId_Some; by simpl.
  - by destruct (export_unresolved CORE_VERSION VERSION w spans self Hpid)
      as (_ & H & _).
Qed.

Lemma export_with_client (w : World) (spans : list ReadableSpan)
    (self : TraceExporter) (pid : string) (client : TraceService) :
  resolved_projectId self = Some pid →
  _traceServiceClient self = Some client →
  client_builds (events_of (export CORE_VERSION VERSION w spans self)) = 0%nat
  ∧ rpcs (events_of (export CORE_VERSION VERSION w spans self)) =
    [(client, request_for pid spans)]
  ∧ _traceServiceClient (state_of (export CORE_VERSION VERSION w spans self)) =
    Some client.
Proof.
  intros H Hc. apply resolved_projectId_Some in H as [Hv Hne].
  destruct self as [[v|v] c], w as [auth [rerr|]];
    simpl in *; subst; run_export; rewrite Hne; by simpl.
Qed.

Lemma exports_with_client (calls : list (World * list ReadableSpan))
    (self : TraceExporter) (pid : string) (client : TraceService) :
  resolved_projectId self = Some pid →
  _traceServiceClient self = Some client →
  Forall2 (λ call evs,
             client_builds evs = 0%nat
             ∧ rpcs evs = [(client, request_for pid call.2)])
    calls (snd (exports CORE_VERSION VERSION calls self))
  ∧ _traceServiceClient (fst (exports CORE_VERSION VERSION calls self)) =
    Some client.
Proof.
  revert self.
  induction calls as [|[w spans] calls IH]; intros self Hpid Hclient.
  - by split; [constructor|].
  - rewrite exports_cons; simpl.
    destruct (export_with_client w spans self pid client Hpid Hclient)
      as (Hbuilds & Hrpcs & Hnext).
    destruct (IH (state_of (export CORE_VERSION VERSION w spans self)))
      as [Hrest Hlast]; [by rewrite export_projectId_stable|done|].
    split; [by constructor|done].
Qed.

(** X14. An [export] call issues at most one rpc.  With a project id and a
    client (cached, or built during the call) it issues exactly one, on
    that client, and the request names [projects/<project id>] and carries
    the transformed spans in order, also when the list of spans is empty;
    without a project id, or when the client cannot be built, it issues
    none. *)
Theorem export_sends_one_request (w : World) (spans : list ReadableSpan)
    (self : TraceExporter) :
  rpcs (events_of (export CORE_VERSION VERSION w spans self)) =
  match resolved_projectId self with
  | None => []
  | Some pid =>
      match _traceServiceClient self, auth_getClient w with
      | Some client, _ => [(client, request_for pid spans)]
      | None, inr creds => [(client_for creds, request_for pid spans)]
      | None, inl _ => []
      end
  end.
Proof. by_cases self w; reflexivity. Qed.

(** X15. What an [export] call logs as an error: the authorization error,
    prefixed, when the client cannot be built; the rpc's error, prefixed,
    when the batched write fails; nothing on success, and nothing when
    there is no project id. *)
Theorem export_logs_failures (w : World) (spans : list ReadableSpan)
    (self : TraceExporter) :
  errors (events_of (export CORE_VERSION VERSION w spans self)) =
  match resolved_projectId self with
  | None => []
  | Some _ =>
      match _traceServiceClient self, auth_getClient w with
      | None, inl err => ["authorize error: " +:+ err_message err]
      | _, _ =>
          match rpc_error w with
          | Some err => ["batchWriteSpans error: " +:+ err_message err]
          | None => []
          end
      end
  end.
Proof. by_cases self w; reflexivity. Qed.

(** X16. Calling the result callback is the last thing an [export] call
    does, and it is called once. *)
Theorem callback_is_last (w : World) (spans : list ReadableSpan)
    (self : TraceExporter) :
  ∃ result : ExportResult,
    last (events_of (export CORE_VERSION VERSION w spans self)) =
      Some (ResultCallback result)
    ∧ callbacks (events_of (export CORE_VERSION VERSION w spans self)) =
      [result].
Proof. by_cases self w; eexists; split; reflexivity. Qed.

(** X17. No sequence of [export] calls changes the project id of an
    instance, resolved or not; after a call the promise has been replaced by
    the value it settled to. *)
Theorem projectId_never_changes (calls : list (World * list ReadableSpan))
    (w : World) (spans : list ReadableSpan) (self : TraceExporter) :
  resolved_projectId (fst (exports CORE_VERSION VERSION calls self)) =
    resolved_projectId self
  ∧ ∃ v, _projectId (state_of (export CORE_VERSION VERSION w spans self)) =
         Settled v.
Proof.
  split.
  - revert self. induction calls as [|[w0 spans0] calls IH]; intros self.
    + reflexivity.
    + rewrite exports_cons; simpl. by rewrite IH, export_projectId_stable.
  - by_cases self w; eexists; reflexivity.
Qed.

(** X18. A client, once there, is reused: on an instance with a project id
    and a client no call of a sequence builds a client, every call sends its
    request on that client, and the client is still cached at the end. *)
Theorem client_reused (calls : list (World * list ReadableSpan))
    (self : TraceExporter) (pid : string) (client : TraceService) :
  resolved_projectId self = Some pid →
  _traceServiceClient self = Some client →
  Forall2 (λ call evs,
             client_builds evs = 0%nat
             ∧ rpcs evs = [(client, request_for pid call.2)])
    calls (snd (exports CORE_VERSION VERSION calls self))
  ∧ _traceServiceClient (fst (exports CORE_VERSION VERSION calls self)) =
    Some client.
Proof. apply exports_with_client. Qed.

(** X19. When calls do not overlap, the client is built lazily and once: a
    call on an instance with a project id and no client whose
    authentication succeeds builds the client once, for the service's host
    and with the credentials obtained, and caches it; no call that starts
    after this one has finished builds a client, whatever its collaborators
    answer.  (A call that starts while the client is still being built finds
    no client and builds one of its own; [exports] runs each call to its end
    before the next.) *)
Theorem client_built_once (w : World) (spans : list ReadableSpan)
    (self : TraceExporter) (pid : string) (creds : Credentials)
    (calls : list (World * list ReadableSpan)) :
  resolved_projectId self = Some pid →
  _traceServiceClient self = None →
  auth_getClient w = inr creds →
  client_builds (events_of (export CORE_VERSION VERSION w spans self)) = 1%nat
  ∧ _traceServiceClient (state_of (export CORE_VERSION VERSION w spans self)) =
    Some (client_for creds)
  ∧ Forall (λ evs, client_builds evs = 0%nat)
      (snd (exports CORE_VERSION VERSION calls
              (state_of (export CORE_VERSION VERSION w spans self)))).
Proof.
  intros Hpid Hclient Hauth.
  assert (Hfirst :
    client_builds (events_of (export CORE_VERSION VERSION w spans self)) = 1%nat
    ∧ _traceServiceClient
        (state_of (export CORE_VERSION VERSION w spans self)) =
      Some (client_for creds)).
  { pose proof Hpid as H. apply resolved_projectId_Some in H as [Hv Hne].
    destruct self as [[v|v] c], w as [auth [rerr|]];
      simpl in *; subst; run_export; rewrite Hne; by simpl. }
  destruct Hfirst as [Hbuilds Hcached].
  split; [done|]. split; [done|].
  destruct (exports_with_client calls
              (state_of (export CORE_VERSION VERSION w spans self))
              pid (client_for creds)) as [Hrest _];
    [by rewrite export_projectId_stable|done|].
  clear -Hrest. induction Hrest as [|call evs calls' evss [H _] _ IH];
    by constructor.
Qed.

End ExporterExtras.

(** ** The further properties on concrete inputs *)

(** [1.25] and [0.75] are both stored as [1]. *)
Lemma conversion_injective_witness :
  supported (Num (S754_finite false 5 (-2))) = true
  ∧ supported (Num (S754_finite false 3 (-2))) = true
  ∧ valueToAttributeValue (Num (S754_finite false 5 (-2))) =
    valueToAttributeValue (Num (S754_finite false 3 (-2)))
  ∧ Math_round (S754_finite false 5 (-2)) =
    Math_round (S754_finite false 3 (-2)).
Proof.
  repeat (split; [reflexivity|]).
  apply (conversion_injective (Num (S754_finite false 5 (-2)))
           (Num (S754_finite false 3 (-2)))); reflexivity.
Defined.

Lemma integer_attribute_unchanged_witness :
  to_Z (of_Z 3) = Some 3
  ∧ valueToAttributeValue (Num (of_Z 3)) =
    {| cloudtracev2.stringValue := None;
       cloudtracev2.intValue := Some (of_Z 3);
       cloudtracev2.boolValue := None |}.
Proof.
  split; [reflexivity|].
  apply (integer_attribute_unchanged (of_Z 3) 3). reflexivity.
Defined.

Lemma rounding_monotone_witness :
  to_Q (S754_finite false 3 (-2)) = Some (3 # 4)%Q
  ∧ to_Q Fixtures.n112_12 = Some (986217949649961 # 8796093022208)%Q
  ∧ ((3 # 4) <= (986217949649961 # 8796093022208))%Q
  ∧ ∃ rx ry : Z,
      cloudtracev2.intValue
        (valueToAttributeValue (Num (S754_finite false 3 (-2)))) ≫= to_Z =
        Some rx
      ∧ cloudtracev2.intValue
          (valueToAttributeValue (Num Fixtures.n112_12)) ≫= to_Z = Some ry
      ∧ rx <= ry.
Proof.
  assert (Hle : ((3 # 4) <= (986217949649961 # 8796093022208))%Q)
    by (unfold Qle; simpl; lia).
  split; [reflexivity|]. split; [reflexivity|]. split; [exact Hle|].
  apply (rounding_monotone (S754_finite false 3 (-2)) Fixtures.n112_12
           (3 # 4)%Q (986217949649961 # 8796093022208)%Q);
    [reflexivity|reflexivity|exact Hle].
Defined.

Lemma client_reused_witness :
  resolved_projectId Fixtures.readyExporter = Some "project-id"
  ∧ _traceServiceClient (fst
      (exports Fixtures.CORE_VERSION Fixtures.VERSION
         [(Fixtures.worldAuthFails, [Fixtures.readableSpan]);
          (Fixtures.worldRpcFails, [])]
         Fixtures.readyExporter)) =
    _traceServiceClient Fixtures.readyExporter.
Proof.
  split; [reflexivity|].
  exact (proj2 (client_reused Fixtures.CORE_VERSION Fixtures.VERSION
                  [(Fixtures.worldAuthFails, [Fixtures.readableSpan]);
                   (Fixtures.worldRpcFails, [])]
                  Fixtures.readyExporter "project-id"
                  {| host := "cloudtrace.googleapis.com";
                     credentials := {| cred_id := 1 |} |}
                  eq_refl eq_refl)).
Defined.

Lemma client_built_once_witness :
  resolved_projectId Fixtures.resolvedExporter = Some "project-id"
  ∧ _traceServiceClient Fixtures.resolvedExporter = None
  ∧ auth_getClient Fixtures.worldOk = inr {| cred_id := 1 |}
  ∧ client_builds
      (events_of (export Fixtures.CORE_VERSION Fixtures.VERSION Fixtures.worldOk
                    [Fixtures.readableSpan] Fixtures.resolvedExporter)) = 1%nat.
Proof.
  repeat (split; [reflexivity|]).
  exact (proj1 (client_built_once Fixtures.CORE_VERSION Fixtures.VERSION
                  Fixtures.worldOk [Fixtures.readableSpan]
                  Fixtures.resolvedExporter "project-id" {| cred_id := 1 |}
                  [(Fixtures.worldAuthFails, [Fixtures.readableSpan])]
                  eq_refl eq_refl eq_refl)).
Defined.
